(** * Moving averages of [ray/intro_to_ray.ipynb]

    A shallow embedding of the two functions of the notebook
    [ray/intro_to_ray.ipynb], [timer] and [calc_moving_average] (with its
    row-level variant [calc_moving_average_ray]), and the properties of the
    moving-average computation.

    Numbers are exact rationals ([Q]); a cell of a numpy float array is either
    such a number or [NaN], which is what [np.mean] yields on an empty slice.
    The rounding, the overflow and the infinities of float64 are outside this
    model; the properties below say which elements are averaged, what is
    allocated and written, and where an empty slice or a [nan] of the input
    brings a [nan], none of which rests on them.  (Where a result is said to
    hold numbers only, that is for exact arithmetic: float64 can overflow.)
    Arrays live in a store indexed by references, so that the allocation of
    [ma_data] and the in-place row assignment [ma_data[i] = ...] are visible;
    a row of [data] is only ever read, and the comprehension is evaluated in
    full before the assignment.  Python exceptions are the [Raise] outcomes of
    a small state and error monad. *)

From Stdlib Require Import ZArith QArith Lia.
From stdpp Require Import base option list gmap.

Local Open Scope Z_scope.

(** ** Cells of a float array and [np.mean] *)

Inductive cell : Type :=
  | Num (q : Q)
  | NaN.

Definition cell_add (x y : cell) : cell :=
  match x, y with
  | Num a, Num b => Num (a + b)%Q
  | _, _ => NaN
  end.

(** [np.sum] of a one-dimensional array. *)
Definition np_sum (xs : list cell) : cell := foldr cell_add (Num 0%Q) xs.

(** Division of a sum by an element count: [0.0 / 0] is [nan]. *)
Definition cell_div_count (s : cell) (n : nat) : cell :=
  match s, n with
  | Num a, S _ => Num (a / inject_Z (Z.of_nat n))%Q
  | _, _ => NaN
  end.

(** [np.mean(xs)]: the sum over the number of elements; on an empty array
    numpy warns and returns [nan], it does not raise. *)
Definition np_mean (xs : list cell) : cell :=
  cell_div_count (np_sum xs) (length xs).

(** ** Python slicing of a one-dimensional array, [row[start:stop]] *)

(** A slice bound is adjusted as CPython does for a positive step: a negative
    bound counts from the end, and the result is clipped to [0 .. n]. *)
Definition adjust_index (n i : Z) : Z :=
  let i' := if i <? 0 then i + n else i in
  if i' <? 0 then 0 else if n <? i' then n else i'.

Definition slice (row : list cell) (start stop : option Z) : list cell :=
  let n := Z.of_nat (length row) in
  let a := match start with Some s => adjust_index n s | None => 0 end in
  let b := match stop with Some s => adjust_index n s | None => n end in
  take (Z.to_nat (b - a)) (drop (Z.to_nat a) row).

(** ** Exceptions, state and the monad of the embedding *)

Inductive exn : Type :=
  | IndexError    (* index out of bounds *)
  | ValueError    (* shapes that do not broadcast, negative sleep length *)
  | DanglingRef.  (* a reference to no array: never happens in Python *)

Inductive result (A : Type) : Type :=
  | Ok (a : A)
  | Raise (e : exn).
Arguments Ok {A} a.
Arguments Raise {A} e.

Definition M (S A : Type) : Type := S → result (A * S).

Global Instance M_ret {S} : MRet (M S) := λ A a s, Ok (a, s).

Global Instance M_bind {S} : MBind (M S) := λ A B k m s,
  match m s with
  | Ok (a, s') => k a s'
  | Raise e => Raise e
  end.

(** A [for] loop over a list whose body is a statement. *)
Fixpoint for_each {S A} (xs : list A) (body : A → M S unit) : M S unit :=
  match xs with
  | [] => mret tt
  | x :: xs' => body x ;; for_each xs' body
  end.

(** ** [timer] *)

(** The only state [timer] touches is the clock, in seconds.  It counts the
    seconds asked of [time.sleep]; a real [time.sleep] suspends for at least
    that long, so the clock is a lower bound on the time that has passed. *)
Definition clock : Type := Z.

(** [time.sleep(secs)] raises [ValueError] on a negative length. *)
Definition time_sleep (secs : Z) : M clock unit :=
  λ t, if secs <? 0 then Raise ValueError else Ok (tt, t + secs).

(** [def timer(x): time.sleep(1); return x] *)
Definition timer {A : Type} (x : A) : M clock A :=
  time_sleep 1 ;;
  mret x.

(** ** Two-dimensional arrays and the store *)

Record ndarray : Type := mk_ndarray {
  shape : nat * nat;
  rows : list (list cell);
}.

(** The rows of an array agree with its shape. *)
Definition well_shaped (a : ndarray) : bool :=
  bool_decide (length (rows a) = (shape a).1) &&
  forallb (λ r, bool_decide (length r = (shape a).2)) (rows a).

Definition loc : Type := positive.
Abbreviation store := (gmap positive ndarray).

(** The reference the allocator hands out next: one not in use. *)
Definition fresh_loc (h : store) : loc := fresh (dom h : gset positive).

(** [np.zeros(shp)]: a freshly allocated array of zeros. *)
Definition np_zeros (shp : nat * nat) : M store loc :=
  λ h, let l := fresh_loc h in
       Ok (l, <[l := mk_ndarray shp (replicate shp.1 (replicate shp.2 (Num 0%Q)))]> h).

(** [a.shape] *)
Definition get_shape (l : loc) : M store (nat * nat) :=
  λ h, match h !! l with
       | Some a => Ok (shape a, h)
       | None => Raise DanglingRef
       end.

(** [a[i]] read: the [i]-th row. *)
Definition get_row (l : loc) (i : nat) : M store (list cell) :=
  λ h, match h !! l with
       | Some a =>
           match rows a !! i with
           | Some r => Ok (r, h)
           | None => Raise IndexError
           end
       | None => Raise DanglingRef
       end.

(** [a[i] = vals]: the values are copied into row [i]; a single value is
    broadcast along the row, any other length mismatch is a [ValueError]. *)
Definition set_row (l : loc) (i : nat) (vals : list cell) : M store unit :=
  λ h, match h !! l with
       | Some a =>
           if bool_decide (i < length (rows a))%nat then
             if bool_decide (length vals = (shape a).2) then
               Ok (tt, <[l := mk_ndarray (shape a) (<[i := vals]> (rows a))]> h)
             else
               match vals with
               | [v] => Ok (tt, <[l := mk_ndarray (shape a)
                                         (<[i := replicate (shape a).2 v]> (rows a))]> h)
               | _ => Raise ValueError
               end
           else Raise IndexError
       | None => Raise DanglingRef
       end.

(** ** [calc_moving_average] and [calc_moving_average_ray] *)

(** The whole-matrix function:
<<
def calc_moving_average(data, window=10):
    ma_data = np.zeros(data.shape)
    for i, row in enumerate(data):
        ma_data[i] = np.array(
            [np.mean(row[j-window:j+1])
             if j > window else np.mean(row[:j+1])
             for j, _ in enumerate(row)])
    return ma_data
>> *)
Definition calc_moving_average (data : loc) (window : Z) : M store loc :=
  shp ← get_shape data ;
  ma_data ← np_zeros shp ;
  for_each (seq 0 shp.1) (λ i,
    row ← get_row data i ;
    set_row ma_data i
      (imap (λ (j : nat) (_ : cell),
               if Z.of_nat j >? window
               then np_mean (slice row (Some (Z.of_nat j - window)) (Some (Z.of_nat j + 1)))
               else np_mean (slice row None (Some (Z.of_nat j + 1))))
            row)) ;;
  mret ma_data.

(** The row-level function (the last definition of that name in the notebook):
<<
@ray.remote
def calc_moving_average_ray(row, window=10):
    return np.array([np.mean(row[j-window:j+1])
             if j > window else np.mean(row[:j+1])
             for j, _ in enumerate(row)])
>> *)
Definition calc_moving_average_ray (row : list cell) (window : Z) : list cell :=
  imap (λ (j : nat) (_ : cell),
          if Z.of_nat j >? window
          then np_mean (slice row (Some (Z.of_nat j - window)) (Some (Z.of_nat j + 1)))
          else np_mean (slice row None (Some (Z.of_nat j + 1))))
       row.

(** The array a call returns, read back from the store it leaves. *)
Definition output_of (h : store) (data : loc) (window : Z) : result ndarray :=
  match calc_moving_average data window h with
  | Ok (l, h') =>
      match h' !! l with
      | Some out => Ok out
      | None => Raise DanglingRef
      end
  | Raise e => Raise e
  end.

(** ** The words of the specification *)

(** Element [k] of a sequence, in the mathematical sense: no index is read
    from the end. *)
Definition elem_at (row : list cell) (k : Z) : option cell :=
  if k <? 0 then None else row !! Z.to_nat k.

(** The elements at indices [lo] through [hi] inclusive. *)
Definition elems_between (row : list cell) (lo hi : Z) : list cell :=
  omap (elem_at row) (seqZ lo (hi - lo + 1)).

(** The arithmetic mean of the elements at indices [lo] through [hi]. *)
Definition mean_between (row : list cell) (lo hi : Z) : cell :=
  np_mean (elems_between row lo hi).



(** Two cells hold the same value. *)
Definition cell_equiv (x y : cell) : Prop :=
  match x, y with
  | Num a, Num b => (a == b)%Q
  | NaN, NaN => True
  | _, _ => False
  end.

(** ** Sample data *)

Definition sample_matrix : ndarray :=
  mk_ndarray (2, 3)%nat
    [[Num 1%Q; Num 2%Q; Num 3%Q]; [Num 4%Q; Num 6%Q; Num 8%Q]].

Definition sample_store : store := {[ 1%positive := sample_matrix ]}.

(** A matrix without rows, [np.zeros((0, 5))]. *)
Definition empty_matrix : ndarray := mk_ndarray (0, 5)%nat [].

Definition empty_store : store := {[ 1%positive := empty_matrix ]}.

(** ** The cells of the notebook around the two functions *)

(** A list comprehension whose body has effects, [[f(x) for x in xs]], runs
    the body on the elements from left to right: it is [mapM f xs].  The
    sequential timing cell has [values = [timer(x) for x in range(4)]]. *)
Definition range (n : nat) : list Z := seqZ 0 (Z.of_nat n).

(** What [np.array] builds from a list of one-dimensional arrays: the empty
    list gives the one-dimensional empty array, rows of one length a matrix.
    (Rows of different lengths are refused by numpy from 1.24 on and gave an
    array of objects before; they do not arise below.) *)
Inductive pyarray : Type :=
  | Array1 (xs : list cell)
  | Array2 (a : ndarray).

Definition np_array (rs : list (list cell)) : result pyarray :=
  match rs with
  | [] => Ok (Array1 [])
  | r :: _ =>
      if forallb (λ r', bool_decide (length r' = length r)) rs
      then Ok (Array2 (mk_ndarray (length rs, length r) rs))
      else Raise ValueError
  end.

Definition lift_result {S A} (r : result A) : M S A :=
  λ s, match r with
       | Ok a => Ok (a, s)
       | Raise e => Raise e
       end.

(** The row-wise cell, with the window made explicit (the cell leaves it at
    its default):
<<
ma_data_ray = np.array(ray.get(
    [calc_moving_average_ray.remote(row)
    for row in data]
    ))
>>
    [ray.get] returns the results of the submitted calls in the order of the
    list; a call [f.remote(row)] collected by [ray.get] is modelled by the
    value [f(row)], the scheduling being Ray's. *)
Definition row_wise_moving_average (data : loc) (window : Z) : M store pyarray :=
  shp ← get_shape data ;
  results ← mapM (λ i, row ← get_row data i ;
                       mret (calc_moving_average_ray row window))
                 (seq 0 shp.1) ;
  lift_result (np_array results).

(** ** The trailing window *)

(** The trailing window at index [j] for a window [w >= 0]: the elements at
    indices [j - min j w] through [j]. *)
Definition window_of {A : Type} (xs : list A) (w : Z) (j : nat) : list A :=
  let k := Nat.min j (Z.to_nat w) in
  take (S k) (drop (j - k) xs).

(** ** The model on small inputs *)

Example slice_from_the_end :
  slice [Num 1%Q; Num 2%Q; Num 3%Q; Num 4%Q] (Some (-2)) None = [Num 3%Q; Num 4%Q].
Proof. reflexivity. Qed.

Example slice_clipped :
  slice [Num 1%Q; Num 2%Q; Num 3%Q] (Some 1) (Some 10) = [Num 2%Q; Num 3%Q].
Proof. reflexivity. Qed.

Example slice_crossed : slice [Num 1%Q; Num 2%Q; Num 3%Q] (Some 2) (Some 1) = [].
Proof. reflexivity. Qed.

Example np_mean_empty : np_mean [] = NaN.
Proof. reflexivity. Qed.

Example np_mean_three : cell_equiv (np_mean [Num 1%Q; Num 2%Q; Num 3%Q]) (Num 2%Q).
Proof. by vm_compute. Qed.

Example calc_moving_average_sample :
  output_of sample_store 1%positive 1
  = Ok (mk_ndarray (2, 3)%nat
          [[Num 1%Q; Num (3 # 2)%Q; Num (5 # 2)%Q];
           [Num 4%Q; Num (10 # 2)%Q; Num (14 # 2)%Q]]).
Proof. by vm_compute. Qed.

Example calc_moving_average_ray_negative_window :
  calc_moving_average_ray [Num 1%Q; Num 2%Q; Num 3%Q] (-1) = [NaN; NaN; NaN].
Proof. by vm_compute. Qed.

(** ** Slices the comprehension takes *)

Lemma adjust_index_in_range (n i : Z) : 0 ≤ i ≤ n → adjust_index n i = i.
Proof.
  intros Hi. unfold adjust_index.
  destruct (Z.ltb_spec i 0); [lia|]. destruct (Z.ltb_spec i 0); [lia|].
  destruct (Z.ltb_spec n i); lia.
Qed.

Lemma adjust_index_clipped (n i : Z) : 0 ≤ n ≤ i → adjust_index n i = n.
Proof.
  intros Hi. unfold adjust_index.
  destruct (Z.ltb_spec i 0); [lia|]. destruct (Z.ltb_spec i 0); [lia|].
  destruct (Z.ltb_spec n i); lia.
Qed.

Section Slices.
Context (row : list cell).

Lemma slice_prefix (j : nat) :
  (j < length row)%nat →
  slice row None (Some (Z.of_nat j + 1)) = take (S j) row.
Proof.
  intros Hj. unfold slice. rewrite adjust_index_in_range by lia.
  rewrite Z.sub_0_r. change (Z.to_nat 0) with 0%nat. rewrite drop_0.
  by replace (Z.to_nat (Z.of_nat j + 1)) with (S j) by lia.
Qed.

Lemma slice_trailing (j : nat) (w : Z) :
  (j < length row)%nat → 0 ≤ w < Z.of_nat j →
  slice row (Some (Z.of_nat j - w)) (Some (Z.of_nat j + 1))
  = take (Z.to_nat (w + 1)) (drop (Z.to_nat (Z.of_nat j - w)) row).
Proof.
  intros Hj Hw. unfold slice. rewrite !adjust_index_in_range by lia.
  by replace (Z.of_nat j + 1 - (Z.of_nat j - w)) with (w + 1) by lia.
Qed.

Lemma slice_trailing_negative (j : nat) (w : Z) :
  (j < length row)%nat → w < 0 →
  slice row (Some (Z.of_nat j - w)) (Some (Z.of_nat j + 1)) = [].
Proof.
  intros Hj Hw. unfold slice.
  rewrite (adjust_index_in_range _ (Z.of_nat j + 1)) by lia.
  destruct (Z.le_gt_cases (Z.of_nat j - w) (Z.of_nat (length row))).
  - rewrite adjust_index_in_range by lia.
    by replace (Z.to_nat (_ - _)) with 0%nat by lia.
  - rewrite adjust_index_clipped by lia.
    by replace (Z.to_nat (_ - _)) with 0%nat by lia.
Qed.

Lemma elem_at_of_nat (k : nat) : elem_at row (Z.of_nat k) = row !! k.
Proof.
  unfold elem_at. destruct (Z.ltb_spec (Z.of_nat k) 0); [lia|].
  by rewrite Nat2Z.id.
Qed.

(** Reading indices [lo .. lo + len - 1] one by one gives the sublist. *)
Lemma omap_elem_at_seqZ (len : nat) (lo : nat) :
  (lo + len ≤ length row)%nat →
  omap (elem_at row) (seqZ (Z.of_nat lo) (Z.of_nat len)) = take len (drop lo row).
Proof.
  revert lo. induction len as [|len IH]; intros lo Hle.
  - done.
  - rewrite seqZ_cons by lia.
    destruct (lookup_lt_is_Some_2 row lo) as [x Hx]; [lia|].
    rewrite (drop_S _ _ _ Hx).
    replace (Z.succ (Z.of_nat lo)) with (Z.of_nat (S lo)) by lia.
    replace (Z.pred (Z.of_nat (S len))) with (Z.of_nat len) by lia.
    change (omap ?f (?k :: ?ks))
      with (match f k with Some y => y :: omap f ks | None => omap f ks end).
    rewrite elem_at_of_nat, Hx, IH by lia. done.
Qed.

Lemma elems_between_sublist (lo hi : Z) :
  0 ≤ lo → lo ≤ hi + 1 → hi < Z.of_nat (length row) →
  elems_between row lo hi
  = take (Z.to_nat (hi - lo + 1)) (drop (Z.to_nat lo) row).
Proof.
  intros Hlo Hhi Hn. unfold elems_between.
  rewrite <- (Z2Nat.id lo) at 1 by done.
  rewrite <- (Z2Nat.id (hi - lo + 1)) at 1 by lia.
  apply omap_elem_at_seqZ. lia.
Qed.

Lemma elems_between_empty (lo hi : Z) :
  hi < lo → elems_between row lo hi = [].
Proof.
  intros Hlt. unfold elems_between, seqZ.
  replace (Z.to_nat (hi - lo + 1)) with 0%nat by lia. done.
Qed.

Lemma elems_between_length (lo hi : Z) :
  0 ≤ lo → lo ≤ hi + 1 → hi < Z.of_nat (length row) →
  length (elems_between row lo hi) = Z.to_nat (hi - lo + 1).
Proof.
  intros Hlo Hhi Hn. rewrite elems_between_sublist by done.
  rewrite length_take, length_drop. lia.
Qed.

(** Both slices of the comprehension, in the words of the specification. *)
Lemma slice_prefix_elems (j : nat) :
  (j < length row)%nat →
  slice row None (Some (Z.of_nat j + 1)) = elems_between row 0 (Z.of_nat j).
Proof.
  intros Hj. rewrite slice_prefix, elems_between_sublist by lia.
  change (Z.to_nat 0) with 0%nat. rewrite drop_0.
  by replace (Z.to_nat (Z.of_nat j - 0 + 1)) with (S j) by lia.
Qed.

Lemma slice_trailing_elems (j : nat) (w : Z) :
  (j < length row)%nat → w < Z.of_nat j →
  slice row (Some (Z.of_nat j - w)) (Some (Z.of_nat j + 1))
  = elems_between row (Z.of_nat j - w) (Z.of_nat j).
Proof.
  intros Hj Hw. destruct (Z.lt_ge_cases w 0).
  - rewrite slice_trailing_negative, elems_between_empty by lia. done.
  - rewrite slice_trailing, elems_between_sublist by lia.
    by replace (Z.of_nat j - (Z.of_nat j - w) + 1) with (w + 1) by lia.
Qed.
End Slices.

(** ** Running [calc_moving_average] on a store *)

Lemma fresh_loc_unused (h : store) : h !! fresh_loc h = None.
Proof. apply not_elem_of_dom. unfold fresh_loc. apply is_fresh. Qed.

Lemma well_shaped_spec (a : ndarray) :
  well_shaped a = true ↔
  length (rows a) = (shape a).1 ∧ Forall (λ r, length r = (shape a).2) (rows a).
Proof.
  unfold well_shaped. rewrite andb_true_iff, bool_decide_eq_true.
  rewrite forallb_forall, Forall_forall.
  split; intros [H1 H2]; (split; [done|]); intros r Hr.
  - apply list_elem_of_In in Hr. specialize (H2 r Hr).
    by apply bool_decide_eq_true in H2.
  - apply bool_decide_eq_true, H2, list_elem_of_In, Hr.
Qed.

Lemma calc_moving_average_ray_length (row : list cell) (w : Z) :
  length (calc_moving_average_ray row w) = length row.
Proof. unfold calc_moving_average_ray. apply length_imap. Qed.

Section Loop.
Context (data ma_data : loc) (m : ndarray) (w : Z).
Hypothesis Hfresh : data ≠ ma_data.
Hypothesis Hcols : Forall (λ r, length r = (shape m).2) (rows m).

(** One iteration of the [for] loop, with the comprehension folded into
    the row-level function (the two are the same term). *)
Lemma body_run (h : store) (rs : list (list cell)) (i : nat) (row : list cell) :
  h !! data = Some m →
  h !! ma_data = Some (mk_ndarray (shape m) rs) →
  rows m !! i = Some row →
  (i < length rs)%nat →
  (row ← get_row data i ; set_row ma_data i (calc_moving_average_ray row w)) h
  = Ok (tt, <[ma_data := mk_ndarray (shape m)
                           (<[i := calc_moving_average_ray row w]> rs)]> h).
Proof.
  intros Hd Hm Hrow Hi.
  unfold mbind, M_bind, get_row, set_row.
  rewrite Hd, Hrow, Hm. cbn [rows shape].
  rewrite bool_decide_eq_true_2 by done.
  rewrite bool_decide_eq_true_2; [done|].
  rewrite calc_moving_average_ray_length.
  rewrite Forall_forall in Hcols.
  apply Hcols, list_elem_of_lookup. eauto.
Qed.

(** Loop invariant: once the rows below [k] are written, running the
    remaining iterations writes the moving averages of the rows from [k]
    on and leaves everything else as it was. *)
Lemma loop_run (n : nat) :
  ∀ (k : nat) (h : store) (rs : list (list cell)),
    (k + n)%nat = length (rows m) →
    length rs = length (rows m) →
    h !! data = Some m →
    h !! ma_data = Some (mk_ndarray (shape m) rs) →
    for_each (seq k n)
      (λ i, row ← get_row data i ;
            set_row ma_data i (calc_moving_average_ray row w)) h
    = Ok (tt, <[ma_data := mk_ndarray (shape m)
                 (take k rs ++ ((λ r, calc_moving_average_ray r w) <$> drop k (rows m)))]> h).
Proof.
  induction n as [|n IH]; intros k h rs Hk Hlen Hd Hm.
  - cbn [seq for_each]. unfold mret, M_ret.
    rewrite drop_ge, take_ge by lia. rewrite fmap_nil, app_nil_r.
    by rewrite insert_id.
  - cbn [seq for_each].
    destruct (lookup_lt_is_Some_2 (rows m) k) as [row Hrow]; [lia|].
    unfold mbind at 1, M_bind at 1.
    rewrite (body_run h rs k row) by (done || lia).
    rewrite (IH (S k) _ (<[k := calc_moving_average_ray row w]> rs)).
    + rewrite insert_insert_eq. do 3 f_equal.
      rewrite (take_S_r _ k (calc_moving_average_ray row w)).
      * rewrite take_insert_ge by lia.
        rewrite (drop_S _ _ _ Hrow), fmap_cons, <- app_assoc. done.
      * apply list_lookup_insert_eq. lia.
    + lia.
    + by rewrite length_insert.
    + by rewrite lookup_insert_ne.
    + by rewrite lookup_insert_eq.
Qed.
End Loop.

(** The call allocates one array, fills it row by row with the moving
    averages of the rows of [data], and returns it. *)
Lemma calc_moving_average_run (h : store) (data : loc) (m : ndarray) (w : Z) :
  h !! data = Some m →
  well_shaped m = true →
  calc_moving_average data w h
  = Ok (fresh_loc h,
        <[fresh_loc h := mk_ndarray (shape m)
           ((λ r, calc_moving_average_ray r w) <$> rows m)]> h).
Proof.
  intros Hd [Hlen Hcols]%well_shaped_spec.
  assert (data ≠ fresh_loc h) as Hne.
  { intros Heq. pose proof (fresh_loc_unused h) as Hf. congruence. }
  unfold calc_moving_average.
  unfold mbind at 1, M_bind at 1, get_shape. rewrite Hd.
  unfold mbind at 1, M_bind at 1, np_zeros. cbv zeta.
  unfold mbind at 1, M_bind at 1.
  rewrite (loop_run data (fresh_loc h) m w Hne Hcols (shape m).1 0%nat _
             (replicate (shape m).1 (replicate (shape m).2 (Num 0%Q)))).
  - unfold mret, M_ret. rewrite insert_insert_eq, take_0, drop_0. done.
  - done.
  - rewrite length_replicate. done.
  - by rewrite lookup_insert_ne.
  - by rewrite lookup_insert_eq.
Qed.

Lemma output_of_run (h : store) (data : loc) (m : ndarray) (w : Z) :
  h !! data = Some m →
  well_shaped m = true →
  output_of h data w
  = Ok (mk_ndarray (shape m) ((λ r, calc_moving_average_ray r w) <$> rows m)).
Proof.
  intros Hd Hm. unfold output_of.
  rewrite (calc_moving_average_run h data m w Hd Hm).
  by rewrite lookup_insert_eq.
Qed.

(** Element [j] of the comprehension, as the source writes it. *)
Lemma calc_moving_average_ray_lookup (row : list cell) (w : Z) (j : nat) :
  (j < length row)%nat →
  calc_moving_average_ray row w !! j
  = Some (if Z.of_nat j >? w
          then np_mean (slice row (Some (Z.of_nat j - w)) (Some (Z.of_nat j + 1)))
          else np_mean (slice row None (Some (Z.of_nat j + 1)))).
Proof.
  intros Hj. unfold calc_moving_average_ray. rewrite list_lookup_imap.
  destruct (lookup_lt_is_Some_2 row j Hj) as [x ->]. done.
Qed.

(** Row [i] of the returned array is computed from row [i] of the input. *)
Lemma output_row (h : store) (data : loc) (m : ndarray) (w : Z)
    (i : nat) (row : list cell) :
  h !! data = Some m →
  well_shaped m = true →
  rows m !! i = Some row →
  ∃ out, output_of h data w = Ok out ∧
         rows out !! i = Some (calc_moving_average_ray row w).
Proof.
  intros Hd Hm Hrow. eexists. split; [by apply output_of_run|].
  cbn [rows]. by rewrite list_lookup_fmap, Hrow.
Qed.





(** ** The properties *)

(** C1. For every row of the input and every window [w], at every index
    [j >= w] the output holds the arithmetic mean of the input elements at
    indices [j - w] through [j] inclusive; for [w >= 0] these are [w + 1]
    elements.  At [j = w] the code takes the prefix branch, whose slice is the
    same. *)
Theorem C1_trailing_window_mean (h : store) (data : loc) (m : ndarray) (w : Z)
    (i j : nat) (row : list cell) :
  h !! data = Some m →
  well_shaped m = true →
  rows m !! i = Some row →
  (j < length row)%nat →
  w ≤ Z.of_nat j →
  ∃ out orow,
    output_of h data w = Ok out ∧
    rows out !! i = Some orow ∧
    orow !! j = Some (mean_between row (Z.of_nat j - w) (Z.of_nat j)) ∧
    (0 ≤ w →
     length (elems_between row (Z.of_nat j - w) (Z.of_nat j)) = Z.to_nat (w + 1)).
Proof.
  intros Hd Hm Hrow Hj Hw.
  destruct (output_row h data m w i row Hd Hm Hrow) as (out & Hout & Hi).
  exists out, (calc_moving_average_ray row w). split_and!; [done..| |].
  - rewrite calc_moving_average_ray_lookup by done. unfold mean_between.
    rewrite Z.gtb_ltb. destruct (Z.ltb_spec w (Z.of_nat j)).
    + by rewrite slice_trailing_elems.
    + assert (w = Z.of_nat j) as -> by lia.
      rewrite Z.sub_diag. by rewrite slice_prefix_elems.
  - intros Hw0. rewrite elems_between_length by lia. f_equal. lia.
Qed.

Lemma C1_trailing_window_mean_witness :
  ∃ out orow,
    output_of sample_store 1%positive 1 = Ok out ∧
    rows out !! 1%nat = Some orow ∧
    orow !! 2%nat = Some (mean_between [Num 4%Q; Num 6%Q; Num 8%Q] (Z.of_nat 2 - 1) (Z.of_nat 2)) ∧
    (0 ≤ 1 →
     length (elems_between [Num 4%Q; Num 6%Q; Num 8%Q] (Z.of_nat 2 - 1) (Z.of_nat 2))
     = Z.to_nat (1 + 1)).
Proof.
  apply (C1_trailing_window_mean sample_store 1%positive sample_matrix 1 1 2
           [Num 4%Q; Num 6%Q; Num 8%Q]).
  - reflexivity.
  - reflexivity.
  - reflexivity.
  - simpl. lia.
  - lia.
Defined.

(** C2. At every index [j < w] the output holds the arithmetic mean of the
    input elements at indices [0] through [j] inclusive, [j + 1] of them. *)
Theorem C2_prefix_mean (h : store) (data : loc) (m : ndarray) (w : Z)
    (i j : nat) (row : list cell) :
  h !! data = Some m →
  well_shaped m = true →
  rows m !! i = Some row →
  (j < length row)%nat →
  Z.of_nat j < w →
  ∃ out orow,
    output_of h data w = Ok out ∧
    rows out !! i = Some orow ∧
    orow !! j = Some (mean_between row 0 (Z.of_nat j)) ∧
    length (elems_between row 0 (Z.of_nat j)) = S j.
Proof.
  intros Hd Hm Hrow Hj Hw.
  destruct (output_row h data m w i row Hd Hm Hrow) as (out & Hout & Hi).
  exists out, (calc_moving_average_ray row w). split_and!; [done..| |].
  - rewrite calc_moving_average_ray_lookup by done. unfold mean_between.
    rewrite Z.gtb_ltb. destruct (Z.ltb_spec w (Z.of_nat j)); [lia|].
    by rewrite slice_prefix_elems.
  - rewrite elems_between_length by lia. lia.
Qed.

Lemma C2_prefix_mean_witness :
  ∃ out orow,
    output_of sample_store 1%positive 2 = Ok out ∧
    rows out !! 0%nat = Some orow ∧
    orow !! 1%nat = Some (mean_between [Num 1%Q; Num 2%Q; Num 3%Q] 0 (Z.of_nat 1)) ∧
    length (elems_between [Num 1%Q; Num 2%Q; Num 3%Q] 0 (Z.of_nat 1)) = 2%nat.
Proof.
  apply (C2_prefix_mean sample_store 1%positive sample_matrix 2 0 1
           [Num 1%Q; Num 2%Q; Num 3%Q]).
  - reflexivity.
  - reflexivity.
  - reflexivity.
  - simpl. lia.
  - lia.
Defined.

(** C3, at [window = 1] on the row [1, 2, 3]: the output at index 2 is the
    mean of the two elements at indices 1 and 2, one more than [window], and it
    is the mean of no trailing window of at most [window] elements (one that
    starts at index 2 or later). *)
Theorem C3_full_window_has_one_more_element :
  ∃ out orow v,
    output_of sample_store 1%positive 1 = Ok out ∧
    rows out !! 0%nat = Some orow ∧
    orow !! 2%nat = Some v ∧
    v = np_mean [Num 2%Q; Num 3%Q] ∧
    elems_between [Num 1%Q; Num 2%Q; Num 3%Q] 1 2 = [Num 2%Q; Num 3%Q] ∧
    ∀ k : nat,
      ¬ cell_equiv v (mean_between [Num 1%Q; Num 2%Q; Num 3%Q] (2 + Z.of_nat k) 2).
Proof.
  exists (mk_ndarray (2, 3)%nat
            ((λ r, calc_moving_average_ray r 1) <$> rows sample_matrix)).
  exists (calc_moving_average_ray [Num 1%Q; Num 2%Q; Num 3%Q] 1).
  exists (np_mean [Num 2%Q; Num 3%Q]).
  split_and!; [by vm_compute..|].
  intros k. unfold mean_between. destruct k as [|k].
  - vm_compute. discriminate.
  - rewrite elems_between_empty by lia. vm_compute. tauto.
Qed.

(** Stacking non-empty rows of one length gives the matrix of these rows. *)
Lemma np_array_matrix (rs : list (list cell)) (k : nat) :
  rs ≠ [] →
  Forall (λ r, length r = k) rs →
  np_array rs = Ok (Array2 (mk_ndarray (length rs, k) rs)).
Proof.
  intros Hne Hall. destruct rs as [|r rs]; [done|]. unfold np_array.
  assert (length r = k) as Hr by (by apply Forall_cons in Hall as [? _]).
  rewrite (proj2 (forallb_forall _ (r :: rs))); [by rewrite Hr|].
  intros r' Hr'%list_elem_of_In. apply bool_decide_eq_true.
  rewrite Forall_forall in Hall. by rewrite (Hall r' Hr').
Qed.

(** C4. On every matrix with at least one row, computing the moving average
    of each row with [calc_moving_average_ray] and stacking the resulting rows
    in order with [np.array] gives the very array, shape and rows, that
    [calc_moving_average] returns on the matrix, in exact arithmetic. *)
Theorem C4_stacked_rows_match (h : store) (data : loc) (m : ndarray) (w : Z) :
  h !! data = Some m →
  well_shaped m = true →
  rows m ≠ [] →
  ∃ out,
    output_of h data w = Ok out ∧
    np_array ((λ row, calc_moving_average_ray row w) <$> rows m) = Ok (Array2 out).
Proof.
  intros Hd Hm Hne. eexists. split; [by apply output_of_run|].
  apply well_shaped_spec in Hm as [Hlen Hcols].
  rewrite (np_array_matrix _ (shape m).2).
  - rewrite length_fmap, Hlen. by destruct m as [[n k] rs].
  - by destruct (rows m).
  - apply Forall_fmap. eapply Forall_impl; [exact Hcols|].
    intros r Hr. cbn. by rewrite calc_moving_average_ray_length.
Qed.

Lemma C4_stacked_rows_match_witness :
  ∃ out,
    output_of sample_store 1%positive 1 = Ok out ∧
    np_array ((λ row, calc_moving_average_ray row 1) <$> rows sample_matrix)
    = Ok (Array2 out).
Proof.
  apply (C4_stacked_rows_match sample_store 1%positive sample_matrix 1).
  - reflexivity.
  - reflexivity.
  - discriminate.
Defined.

(** C4 as stated, for every matrix, fails on a matrix without rows:
    [calc_moving_average] returns the two-dimensional array of shape [(0, 5)],
    stacking no rows gives the one-dimensional empty array. *)
Lemma C4_no_rows_counterexample :
  empty_store !! 1%positive = Some empty_matrix ∧
  well_shaped empty_matrix = true ∧
  output_of empty_store 1%positive 10 = Ok (mk_ndarray (0, 5)%nat []) ∧
  np_array ((λ row, calc_moving_average_ray row 10) <$> rows empty_matrix)
  = Ok (Array1 []) ∧
  ¬ (∃ out,
       output_of empty_store 1%positive 10 = Ok out ∧
       np_array ((λ row, calc_moving_average_ray row 10) <$> rows empty_matrix)
       = Ok (Array2 out)).
Proof.
  split_and!; [reflexivity..|].
  intros (out & _ & Hstack). discriminate Hstack.
Qed.

(** C5. The output has one row per input row, and the output row of an input
    row of length [n] has length exactly [n], whatever the window. *)
Theorem C5_output_length (h : store) (data : loc) (m : ndarray) (w : Z) :
  h !! data = Some m →
  well_shaped m = true →
  ∃ out,
    output_of h data w = Ok out ∧
    length (rows out) = length (rows m) ∧
    ∀ (i : nat) (row : list cell),
      rows m !! i = Some row →
      ∃ orow, rows out !! i = Some orow ∧ length orow = length row.
Proof.
  intros Hd Hm. eexists. split; [by apply output_of_run|]. cbn [rows]. split.
  - apply length_fmap.
  - intros i row Hrow. exists (calc_moving_average_ray row w). split.
    + by rewrite list_lookup_fmap, Hrow.
    + apply calc_moving_average_ray_length.
Qed.

Lemma C5_output_length_witness :
  ∃ out,
    output_of sample_store 1%positive (-3) = Ok out ∧
    length (rows out) = length (rows sample_matrix) ∧
    ∀ (i : nat) (row : list cell),
      rows sample_matrix !! i = Some row →
      ∃ orow, rows out !! i = Some orow ∧ length orow = length row.
Proof.
  apply (C5_output_length sample_store 1%positive sample_matrix (-3)).
  - reflexivity.
  - reflexivity.
Defined.

(** C6. [timer] returns its argument, whatever it is; the pause only moves
    the clock. *)
Theorem C6_timer_returns_argument (A : Type) (x : A) (t : clock) :
  timer x t = Ok (x, t + 1).
Proof. reflexivity. Qed.



(** C8. The call leaves its input as it was: the result is a reference that
    was not in use, holding an array of the shape of the input, and every
    array of the store before the call, the input among them, is unchanged. *)
Theorem C8_input_unchanged (h : store) (data : loc) (m : ndarray) (w : Z) :
  h !! data = Some m →
  well_shaped m = true →
  ∃ l h' out,
    calc_moving_average data w h = Ok (l, h') ∧
    h !! l = None ∧
    h' !! data = Some m ∧
    (∀ l0 : loc, l0 ≠ l → h' !! l0 = h !! l0) ∧
    h' !! l = Some out ∧
    shape out = shape m.
Proof.
  intros Hd Hm. do 3 eexists.
  split; [by apply (calc_moving_average_run h data m w)|].
  pose proof (fresh_loc_unused h) as Hf.
  split_and!.
  - done.
  - rewrite lookup_insert_ne; [done|]. congruence.
  - intros l0 Hl0. by rewrite lookup_insert_ne.
  - by rewrite lookup_insert_eq.
  - done.
Qed.

Lemma C8_input_unchanged_witness :
  ∃ l h' out,
    calc_moving_average 1%positive 1 sample_store = Ok (l, h') ∧
    sample_store !! l = None ∧
    h' !! 1%positive = Some sample_matrix ∧
    (∀ l0 : loc, l0 ≠ l → h' !! l0 = sample_store !! l0) ∧
    h' !! l = Some out ∧
    shape out = shape sample_matrix.
Proof.
  apply (C8_input_unchanged sample_store 1%positive sample_matrix 1).
  - reflexivity.
  - reflexivity.
Defined.

(** C9. With a window [w >= 0] no mean is taken over an empty slice: at every
    index [j] of a row the prefix slice [row[:j+1]] has exactly [j + 1]
    elements, and where the trailing branch is taken ([j > w]) the start
    [j - w] is at least 1 and is used as it is (not counted from the end, not
    clipped), so that [row[j-w:j+1]] is the [w + 1] elements from [j - w]
    on. *)
Theorem C9_no_empty_window (h : store) (data : loc) (m : ndarray) (w : Z)
    (i j : nat) (row : list cell) :
  h !! data = Some m →
  well_shaped m = true →
  rows m !! i = Some row →
  (j < length row)%nat →
  0 ≤ w →
  ∃ out orow xs,
    output_of h data w = Ok out ∧
    rows out !! i = Some orow ∧
    orow !! j = Some (np_mean xs) ∧
    xs ≠ [] ∧
    length (slice row None (Some (Z.of_nat j + 1))) = S j ∧
    (Z.of_nat j ≤ w → xs = slice row None (Some (Z.of_nat j + 1))) ∧
    (w < Z.of_nat j →
     xs = slice row (Some (Z.of_nat j - w)) (Some (Z.of_nat j + 1)) ∧
     1 ≤ Z.of_nat j - w ∧
     adjust_index (Z.of_nat (length row)) (Z.of_nat j - w) = Z.of_nat j - w ∧
     xs = take (Z.to_nat (w + 1)) (drop (Z.to_nat (Z.of_nat j - w)) row) ∧
     length xs = Z.to_nat (w + 1)).
Proof.
  intros Hd Hm Hrow Hj Hw.
  destruct (output_row h data m w i row Hd Hm Hrow) as (out & Hout & Hi).
  assert (length (slice row None (Some (Z.of_nat j + 1))) = S j) as Hpre.
  { rewrite slice_prefix by done. rewrite length_take. lia. }
  assert (w < Z.of_nat j →
          length (slice row (Some (Z.of_nat j - w)) (Some (Z.of_nat j + 1)))
          = Z.to_nat (w + 1)) as Htr.
  { intros Hlt. rewrite slice_trailing by lia.
    rewrite length_take, length_drop. lia. }
  exists out, (calc_moving_average_ray row w).
  exists (if Z.of_nat j >? w
          then slice row (Some (Z.of_nat j - w)) (Some (Z.of_nat j + 1))
          else slice row None (Some (Z.of_nat j + 1))).
  rewrite calc_moving_average_ray_lookup by done.
  rewrite Z.gtb_ltb. destruct (Z.ltb_spec w (Z.of_nat j)) as [Hlt|Hge].
  - split_and!; [done..| | done | lia |].
    + intros Heq. specialize (Htr Hlt). rewrite Heq in Htr. simpl in Htr. lia.
    + intros _. split_and!; [done | lia | | | by apply Htr].
      * apply adjust_index_in_range. lia.
      * apply slice_trailing; lia.
  - split_and!; [done..| | done | done | lia].
    intros Heq. rewrite Heq in Hpre. simpl in Hpre. lia.
Qed.

Lemma C9_no_empty_window_witness :
  ∃ out orow xs,
    output_of sample_store 1%positive 1 = Ok out ∧
    rows out !! 1%nat = Some orow ∧
    orow !! 2%nat = Some (np_mean xs) ∧
    xs ≠ [] ∧
    length (slice [Num 4%Q; Num 6%Q; Num 8%Q] None (Some (Z.of_nat 2 + 1))) = 3%nat ∧
    (Z.of_nat 2 ≤ 1 →
     xs = slice [Num 4%Q; Num 6%Q; Num 8%Q] None (Some (Z.of_nat 2 + 1))) ∧
    (1 < Z.of_nat 2 →
     xs = slice [Num 4%Q; Num 6%Q; Num 8%Q]
            (Some (Z.of_nat 2 - 1)) (Some (Z.of_nat 2 + 1)) ∧
     1 ≤ Z.of_nat 2 - 1 ∧
     adjust_index (Z.of_nat (length [Num 4%Q; Num 6%Q; Num 8%Q])) (Z.of_nat 2 - 1)
     = Z.of_nat 2 - 1 ∧
     xs = take (Z.to_nat (1 + 1))
            (drop (Z.to_nat (Z.of_nat 2 - 1)) [Num 4%Q; Num 6%Q; Num 8%Q]) ∧
     length xs = Z.to_nat (1 + 1)).
Proof.
  apply (C9_no_empty_window sample_store 1%positive sample_matrix 1 1 2
           [Num 4%Q; Num 6%Q; Num 8%Q]).
  - reflexivity.
  - reflexivity.
  - reflexivity.
  - simpl. lia.
  - lia.
Defined.

(** C10. On a row of length [n <= window + 1] the output is the cumulative
    prefix mean: no index takes the trailing branch, the output row is the
    comprehension of the prefix branch alone, and element [j] is the mean of
    the elements at indices [0] through [j]. *)
Theorem C10_short_row_prefix_means (h : store) (data : loc) (m : ndarray) (w : Z)
    (i : nat) (row : list cell) :
  h !! data = Some m →
  well_shaped m = true →
  rows m !! i = Some row →
  Z.of_nat (length row) ≤ w + 1 →
  ∃ out orow,
    output_of h data w = Ok out ∧
    rows out !! i = Some orow ∧
    orow = imap (λ (j : nat) (_ : cell),
                   np_mean (slice row None (Some (Z.of_nat j + 1)))) row ∧
    ∀ j : nat, (j < length row)%nat →
      (Z.of_nat j >? w) = false ∧
      orow !! j = Some (mean_between row 0 (Z.of_nat j)).
Proof.
  intros Hd Hm Hrow Hn.
  destruct (output_row h data m w i row Hd Hm Hrow) as (out & Hout & Hi).
  assert (∀ j : nat, (j < length row)%nat → (Z.of_nat j >? w) = false) as Hbr.
  { intros j Hj. rewrite Z.gtb_ltb. apply Z.ltb_ge. lia. }
  exists out, (calc_moving_average_ray row w). split_and!; [done..| |].
  - unfold calc_moving_average_ray. apply imap_ext.
    intros j x Hx. rewrite Hbr; [done|]. by eapply lookup_lt_Some.
  - intros j Hj. split; [by apply Hbr|].
    rewrite calc_moving_average_ray_lookup, Hbr by done.
    unfold mean_between. by rewrite slice_prefix_elems.
Qed.

Lemma C10_short_row_prefix_means_witness :
  ∃ out orow,
    output_of sample_store 1%positive 2 = Ok out ∧
    rows out !! 0%nat = Some orow ∧
    orow = imap (λ (j : nat) (_ : cell),
                   np_mean (slice [Num 1%Q; Num 2%Q; Num 3%Q] None
                              (Some (Z.of_nat j + 1))))
             [Num 1%Q; Num 2%Q; Num 3%Q] ∧
    ∀ j : nat, (j < length [Num 1%Q; Num 2%Q; Num 3%Q])%nat →
      (Z.of_nat j >? 2) = false ∧
      orow !! j = Some (mean_between [Num 1%Q; Num 2%Q; Num 3%Q] 0 (Z.of_nat j)).
Proof.
  apply (C10_short_row_prefix_means sample_store 1%positive sample_matrix 2 0
           [Num 1%Q; Num 2%Q; Num 3%Q]).
  - reflexivity.
  - reflexivity.
  - reflexivity.
  - simpl. lia.
Defined.

(** ** Further properties of the row-level computation *)

(** For a window [w >= 0] both branches of the comprehension average the
    trailing window [window_of row w j]. *)
Lemma calc_moving_average_ray_window (row : list cell) (w : Z) (j : nat) :
  0 ≤ w →
  (j < length row)%nat →
  calc_moving_average_ray row w !! j = Some (np_mean (window_of row w j)).
Proof.
  intros Hw Hj. rewrite calc_moving_average_ray_lookup by done.
  unfold window_of. rewrite Z.gtb_ltb.
  destruct (Z.ltb_spec w (Z.of_nat j)).
  - rewrite slice_trailing by lia.
    replace (Nat.min j (Z.to_nat w)) with (Z.to_nat w) by lia.
    replace (Z.to_nat (w + 1)) with (S (Z.to_nat w)) by lia.
    by replace (Z.to_nat (Z.of_nat j - w)) with (j - Z.to_nat w)%nat by lia.
  - rewrite slice_prefix by lia.
    replace (Nat.min j (Z.to_nat w)) with j by lia.
    by rewrite Nat.sub_diag, drop_0.
Qed.

Lemma window_of_length {A : Type} (xs : list A) (w : Z) (j : nat) :
  (j < length xs)%nat →
  length (window_of xs w j) = S (Nat.min j (Z.to_nat w)).
Proof.
  intros Hj. unfold window_of. rewrite length_take, length_drop. lia.
Qed.

Lemma window_of_nonempty {A : Type} (xs : list A) (w : Z) (j : nat) :
  (j < length xs)%nat → window_of xs w j ≠ [].
Proof.
  intros Hj Heq. apply (f_equal length) in Heq.
  rewrite window_of_length in Heq by done. done.
Qed.

Lemma calc_moving_average_ray_negative (row : list cell) (w : Z) :
  w < 0 → calc_moving_average_ray row w = replicate (length row) NaN.
Proof.
  intros Hw. apply list_eq. intros j.
  destruct (decide (j < length row)%nat) as [Hj|Hj].
  - rewrite calc_moving_average_ray_lookup, lookup_replicate_2 by done.
    rewrite Z.gtb_ltb. destruct (Z.ltb_spec w (Z.of_nat j)); [|lia].
    by rewrite slice_trailing_negative.
  - rewrite !lookup_ge_None_2; [done|..].
    + rewrite length_replicate. lia.
    + rewrite calc_moving_average_ray_length. lia.
Qed.

Lemma timer_run (A : Type) (x : A) (t : clock) : timer x t = Ok (x, t + 1).
Proof. reflexivity. Qed.

(** The sequential timing cell of the notebook: four calls, four seconds of
    sleep asked for. *)
Example timer_comprehension_range_4 :
  mapM timer (range 4) 0 = Ok ([0; 1; 2; 3], 4).
Proof. reflexivity. Qed.

(** ** Properties of the code around the claims *)

(** X1. The sequential comprehension [[timer(x) for x in xs]] returns the list
    [xs] itself, in order, on every list, and its pauses add up: at least one
    second per element has passed when it returns. *)
Theorem X1_timer_comprehension (A : Type) (xs : list A) (t : clock) :
  ∃ t' : clock,
    mapM timer xs t = Ok (xs, t') ∧
    t + Z.of_nat (length xs) ≤ t'.
Proof.
  revert t. induction xs as [|x xs IH]; intros t.
  - exists t. split; [done|]. cbn [length]. lia.
  - destruct (IH (t + 1)) as (t' & Hrun & Hle). exists t'. split.
    + change (mapM timer (x :: xs))
        with (y ← timer x ; k ← mapM timer xs ; mret (y :: k) : M clock (list A)).
      unfold mbind at 1, M_bind at 1. rewrite timer_run.
      unfold mbind at 1, M_bind at 1. by rewrite Hrun.
    + cbn [length]. lia.
Qed.

(** X2. With a negative window every cell of the result is [nan]: every index
    takes the trailing branch and its slice [row[j-window:j+1]] is empty.  The
    call still returns, with the shape of the input. *)
Theorem X2_negative_window_all_nan (h : store) (data : loc) (m : ndarray) (w : Z) :
  h !! data = Some m →
  well_shaped m = true →
  w < 0 →
  ∃ out,
    output_of h data w = Ok out ∧
    shape out = shape m ∧
    rows out = replicate (shape m).1 (replicate (shape m).2 NaN).
Proof.
  intros Hd Hm Hw. eexists. split; [by apply output_of_run|]. split; [done|].
  apply well_shaped_spec in Hm as [Hlen Hcols]. cbn [rows].
  rewrite <- Hlen. clear Hlen Hd.
  induction Hcols as [|r rs Hr _ IH]; [done|].
  rewrite fmap_cons. cbn [length replicate]. rewrite IH.
  by rewrite calc_moving_average_ray_negative, Hr.
Qed.

Lemma X2_negative_window_all_nan_witness :
  ∃ out,
    output_of sample_store 1%positive (-1) = Ok out ∧
    shape out = shape sample_matrix ∧
    rows out = replicate (shape sample_matrix).1
                 (replicate (shape sample_matrix).2 NaN).
Proof.
  apply (X2_negative_window_all_nan sample_store 1%positive sample_matrix (-1)).
  - reflexivity.
  - reflexivity.
  - lia.
Defined.

(** X3. With [window = 0] the function gives back the values of its input:
    every cell is the mean of the one-element slice at its own index. *)
Theorem X3_window_zero_identity (row : list cell) (j : nat) (c : cell) :
  row !! j = Some c →
  ∃ v, calc_moving_average_ray row 0 !! j = Some v ∧ cell_equiv v c.
Proof.
  intros Hc. pose proof (lookup_lt_Some _ _ _ Hc) as Hj.
  rewrite calc_moving_average_ray_window by done.
  eexists. split; [done|]. unfold window_of.
  change (Z.to_nat 0) with 0%nat. rewrite Nat.min_0_r, Nat.sub_0_r.
  rewrite (drop_S _ _ _ Hc). cbn [take].
  destruct c as [a|]; [|done].
  change ((a + 0) / 1 == a)%Q. field.
Qed.

Lemma X3_window_zero_identity_witness :
  ∃ v, calc_moving_average_ray [Num 4%Q; Num 6%Q; Num 8%Q] 0 !! 1%nat = Some v ∧
       cell_equiv v (Num 6%Q).
Proof.
  apply (X3_window_zero_identity [Num 4%Q; Num 6%Q; Num 8%Q] 1 (Num 6%Q)).
  reflexivity.
Defined.

(** X6. The window is trailing: an output depends only on the input up to its
    own index.  Appending values to a row leaves the moving averages computed
    so far as they were, for every window. *)
Theorem X6_appending_keeps_earlier_averages (row ext : list cell) (w : Z) :
  take (length row) (calc_moving_average_ray (row ++ ext) w)
  = calc_moving_average_ray row w.
Proof.
  apply list_eq. intros j.
  destruct (decide (j < length row)%nat) as [Hj|Hj].
  - rewrite lookup_take_lt by done.
    rewrite !calc_moving_average_ray_lookup by (rewrite ?length_app; lia).
    rewrite !slice_prefix by (rewrite ?length_app; lia).
    rewrite (take_app_le row ext (S j)) by lia.
    rewrite Z.gtb_ltb. destruct (Z.ltb_spec w (Z.of_nat j)); [|done].
    destruct (Z.lt_ge_cases w 0).
    + by rewrite !slice_trailing_negative by (rewrite ?length_app; lia).
    + rewrite !slice_trailing by (rewrite ?length_app; lia).
      rewrite drop_app_le by lia.
      rewrite take_app_le; [done|]. rewrite length_drop. lia.
  - rewrite !lookup_ge_None_2; [done|..].
    + rewrite calc_moving_average_ray_length. lia.
    + rewrite length_take, calc_moving_average_ray_length, length_app. lia.
Qed.

(** ** Further properties of the call on the store *)

Lemma calc_moving_average_output_well_shaped (m : ndarray) (w : Z) :
  well_shaped m = true →
  well_shaped (mk_ndarray (shape m)
                 ((λ r, calc_moving_average_ray r w) <$> rows m)) = true.
Proof.
  intros [Hlen Hcols]%well_shaped_spec. apply well_shaped_spec. cbn [rows shape].
  split; [by rewrite length_fmap|].
  apply Forall_fmap. eapply Forall_impl; [exact Hcols|].
  intros r Hr. cbn. by rewrite calc_moving_average_ray_length.
Qed.

(** X9. Every call returns an array of its own: two calls on the same input
    return two different references holding equal arrays, the second call
    leaves the result of the first in place, and the input is still as it
    was. *)
Theorem X9_each_call_allocates (h : store) (data : loc) (m : ndarray) (w : Z) :
  h !! data = Some m →
  well_shaped m = true →
  ∃ l1 h1 l2 h2 out,
    calc_moving_average data w h = Ok (l1, h1) ∧
    calc_moving_average data w h1 = Ok (l2, h2) ∧
    l1 ≠ l2 ∧
    h2 !! l1 = Some out ∧
    h2 !! l2 = Some out ∧
    h2 !! data = Some m.
Proof.
  intros Hd Hm.
  pose proof (fresh_loc_unused h) as Hf1.
  assert (data ≠ fresh_loc h) as Hne1 by congruence.
  set (out := mk_ndarray (shape m) ((λ r, calc_moving_average_ray r w) <$> rows m)).
  set (h1 := <[fresh_loc h := out]> h).
  assert (h1 !! data = Some m) as Hd1.
  { unfold h1. by rewrite lookup_insert_ne. }
  pose proof (fresh_loc_unused h1) as Hf2.
  assert (fresh_loc h ≠ fresh_loc h1) as Hne.
  { intros Heq. rewrite <- Heq in Hf2. unfold h1 in Hf2.
    by rewrite lookup_insert_eq in Hf2. }
  exists (fresh_loc h), h1, (fresh_loc h1), (<[fresh_loc h1 := out]> h1), out.
  split_and!.
  - by apply calc_moving_average_run.
  - by apply calc_moving_average_run.
  - done.
  - rewrite lookup_insert_ne by done. unfold h1. by rewrite lookup_insert_eq.
  - by rewrite lookup_insert_eq.
  - rewrite lookup_insert_ne; [done|]. congruence.
Qed.

Lemma X9_each_call_allocates_witness :
  ∃ l1 h1 l2 h2 out,
    calc_moving_average 1%positive 1 sample_store = Ok (l1, h1) ∧
    calc_moving_average 1%positive 1 h1 = Ok (l2, h2) ∧
    l1 ≠ l2 ∧
    h2 !! l1 = Some out ∧
    h2 !! l2 = Some out ∧
    h2 !! 1%positive = Some sample_matrix.
Proof.
  apply (X9_each_call_allocates sample_store 1%positive sample_matrix 1).
  - reflexivity.
  - reflexivity.
Defined.

(** X10. The result is again a well-shaped array of the shape of the input,
    so the function applies to its own result: smoothing twice returns, row by
    row, the moving average of the moving average, and the second pass leaves
    the result of the first as it was. *)
Theorem X10_smoothing_twice (h : store) (data : loc) (m : ndarray) (w : Z) :
  h !! data = Some m →
  well_shaped m = true →
  ∃ l1 h1 out1 l2 h2 out2,
    calc_moving_average data w h = Ok (l1, h1) ∧
    h1 !! l1 = Some out1 ∧
    well_shaped out1 = true ∧
    calc_moving_average l1 w h1 = Ok (l2, h2) ∧
    h2 !! l2 = Some out2 ∧
    shape out2 = shape m ∧
    rows out2
    = (λ r, calc_moving_average_ray (calc_moving_average_ray r w) w) <$> rows m ∧
    h2 !! l1 = Some out1.
Proof.
  intros Hd Hm.
  set (out1 := mk_ndarray (shape m) ((λ r, calc_moving_average_ray r w) <$> rows m)).
  set (h1 := <[fresh_loc h := out1]> h).
  assert (h1 !! fresh_loc h = Some out1) as Hl1.
  { unfold h1. by rewrite lookup_insert_eq. }
  pose proof (calc_moving_average_output_well_shaped m w Hm) as Hws.
  pose proof (fresh_loc_unused h1) as Hf2.
  exists (fresh_loc h), h1, out1.
  eexists (fresh_loc h1), _, _.
  split_and!.
  - by apply calc_moving_average_run.
  - done.
  - done.
  - by apply (calc_moving_average_run h1 (fresh_loc h) out1 w).
  - by rewrite lookup_insert_eq.
  - done.
  - cbn [rows out1]. rewrite <- list_fmap_compose. done.
  - rewrite lookup_insert_ne; [done|]. congruence.
Qed.

Lemma X10_smoothing_twice_witness :
  ∃ l1 h1 out1 l2 h2 out2,
    calc_moving_average 1%positive 1 sample_store = Ok (l1, h1) ∧
    h1 !! l1 = Some out1 ∧
    well_shaped out1 = true ∧
    calc_moving_average l1 1 h1 = Ok (l2, h2) ∧
    h2 !! l2 = Some out2 ∧
    shape out2 = shape sample_matrix ∧
    rows out2
    = (λ r, calc_moving_average_ray (calc_moving_average_ray r 1) 1)
        <$> rows sample_matrix ∧
    h2 !! l1 = Some out1.
Proof.
  apply (X10_smoothing_twice sample_store 1%positive sample_matrix 1).
  - reflexivity.
  - reflexivity.
Defined.

(** ** The row-wise cell *)

(** Submitting one call per row and collecting the results reads the rows of
    [data] in order and leaves the store as it is. *)
Lemma row_results_run (h : store) (data : loc) (m : ndarray) (w : Z) (n : nat) :
  h !! data = Some m →
  ∀ k : nat,
    (k + n ≤ length (rows m))%nat →
    mapM (λ i, row ← get_row data i ;
               mret (calc_moving_average_ray row w) : M store (list cell))
         (seq k n) h
    = Ok ((λ r, calc_moving_average_ray r w) <$> take n (drop k (rows m)), h).
Proof.
  intros Hd. induction n as [|n IH]; intros k Hk.
  - done.
  - destruct (lookup_lt_is_Some_2 (rows m) k) as [row Hrow]; [lia|].
    rewrite (drop_S _ _ _ Hrow). cbn [seq take]. rewrite fmap_cons.
    change (mapM ?f (k :: ?l))
      with (y ← f k ; ys ← mapM f l ; mret (y :: ys) : M store (list (list cell))).
    unfold mbind at 1, M_bind at 1.
    unfold mbind at 1, M_bind at 1, get_row at 1. rewrite Hd, Hrow.
    unfold mret at 1, M_ret at 1.
    unfold mbind at 1, M_bind at 1. rewrite IH by lia. done.
Qed.

(** X11. On a matrix with at least one row the row-wise cell builds the very
    array the sequential function returns, same shape and same rows, and
    stores nothing. *)
Theorem X11_row_wise_matches_sequential (h : store) (data : loc) (m : ndarray) (w : Z) :
  h !! data = Some m →
  well_shaped m = true →
  rows m ≠ [] →
  ∃ out,
    output_of h data w = Ok out ∧
    row_wise_moving_average data w h = Ok (Array2 out, h).
Proof.
  intros Hd Hm Hne. eexists. split; [by apply output_of_run|].
  unfold row_wise_moving_average.
  unfold mbind at 1, M_bind at 1, get_shape. rewrite Hd.
  apply well_shaped_spec in Hm as [Hlen Hcols].
  unfold mbind at 1, M_bind at 1.
  rewrite (row_results_run h data m w (shape m).1 Hd 0%nat) by lia.
  rewrite drop_0, take_ge by lia.
  unfold lift_result.
  rewrite (np_array_matrix _ (shape m).2).
  - rewrite length_fmap, Hlen. by destruct m as [[n k] rs].
  - by destruct (rows m).
  - apply Forall_fmap. eapply Forall_impl; [exact Hcols|].
    intros r Hr. cbn. by rewrite calc_moving_average_ray_length.
Qed.

Lemma X11_row_wise_matches_sequential_witness :
  ∃ out,
    output_of sample_store 1%positive 10 = Ok out ∧
    row_wise_moving_average 1%positive 10 sample_store = Ok (Array2 out, sample_store).
Proof.
  apply (X11_row_wise_matches_sequential sample_store 1%positive sample_matrix 10).
  - reflexivity.
  - reflexivity.
  - discriminate.
Defined.

(** X12. On a matrix without rows the two differ in shape: the sequential
    function returns a two-dimensional array of the shape [(0, k)] of the
    input, the row-wise cell the one-dimensional empty array. *)
Theorem X12_row_wise_no_rows (h : store) (data : loc) (m : ndarray) (w : Z) :
  h !! data = Some m →
  well_shaped m = true →
  rows m = [] →
  output_of h data w = Ok (mk_ndarray (0%nat, (shape m).2) []) ∧
  row_wise_moving_average data w h = Ok (Array1 [], h).
Proof.
  intros Hd Hm Hnil. split.
  - rewrite (output_of_run h data m w Hd Hm). rewrite Hnil.
    apply well_shaped_spec in Hm as [Hlen _]. rewrite Hnil in Hlen.
    destruct (shape m) as [n k]. cbn in Hlen. by subst n.
  - unfold row_wise_moving_average.
    unfold mbind at 1, M_bind at 1, get_shape. rewrite Hd.
    apply well_shaped_spec in Hm as [Hlen _]. rewrite Hnil in Hlen.
    rewrite <- Hlen. done.
Qed.

Lemma X12_row_wise_no_rows_witness :
  output_of {[ 1%positive := mk_ndarray (0, 5)%nat [] ]} 1%positive 10
  = Ok (mk_ndarray (0%nat, (shape (mk_ndarray (0, 5)%nat [])).2) []) ∧
  row_wise_moving_average 1%positive 10 {[ 1%positive := mk_ndarray (0, 5)%nat [] ]}
  = Ok (Array1 [], {[ 1%positive := mk_ndarray (0, 5)%nat [] ]}).
Proof.
  apply (X12_row_wise_no_rows {[ 1%positive := mk_ndarray (0, 5)%nat [] ]}
           1%positive (mk_ndarray (0, 5)%nat []) 10).
  - reflexivity.
  - reflexivity.
  - reflexivity.
Defined.

(** ** Missing values *)

Lemma np_sum_nan (xs : list cell) : NaN ∈ xs → np_sum xs = NaN.
Proof.
  induction xs as [|c xs IH]; intros Hin.
  - by apply not_elem_of_nil in Hin.
  - change (np_sum (c :: xs)) with (cell_add c (np_sum xs)).
    apply elem_of_cons in Hin as [<-|Hin]; [done|].
    rewrite (IH Hin). by destruct c.
Qed.

Lemma np_mean_nan (xs : list cell) : NaN ∈ xs → np_mean xs = NaN.
Proof. intros Hin. unfold np_mean. by rewrite np_sum_nan. Qed.

(** X13. A [nan] in the input spoils every average whose window holds it: for
    a window [w >= 0], if the input is [nan] at an index between [j - w] (or
    0, if that is negative) and [j], the output at index [j] is [nan]. *)
Theorem X13_nan_in_window_gives_nan (row : list cell) (w : Z) (i j : nat) :
  0 ≤ w →
  (j < length row)%nat →
  (j - Z.to_nat w ≤ i ≤ j)%nat →
  row !! i = Some NaN →
  calc_moving_average_ray row w !! j = Some NaN.
Proof.
  intros Hw Hj Hi Hnan.
  rewrite calc_moving_average_ray_window by done.
  f_equal. apply np_mean_nan. unfold window_of.
  apply list_elem_of_lookup. exists (i - (j - Z.to_nat w))%nat.
  replace (j - Nat.min j (Z.to_nat w))%nat with (j - Z.to_nat w)%nat by lia.
  rewrite lookup_take_lt by lia. rewrite lookup_drop, <- Hnan. f_equal. lia.
Qed.

Lemma X13_nan_in_window_gives_nan_witness :
  calc_moving_average_ray [Num 1%Q; NaN; Num 3%Q; Num 4%Q] 1 !! 2%nat = Some NaN.
Proof.
  apply (X13_nan_in_window_gives_nan [Num 1%Q; NaN; Num 3%Q; Num 4%Q] 1 1 2).
  - lia.
  - simpl. lia.
  - simpl. lia.
  - reflexivity.
Defined.
